(** * PlasticGPT chat client: the ChatWindow component and the useChat hook

    A shallow embedding of [client/src/types/chat.ts], of the [ChatWindow]
    component and of the [useChat] hook.  The run-time behaviour is what is
    modelled: TypeScript types are erased, so request and response objects
    are finite maps from property names to JavaScript values, and a
    property that is absent reads as [undefined]. *)

From Stdlib Require Import NArith Ascii String List Bool Lia.
From stdpp Require Import base option list sorting strings gmap.

Local Open Scope N_scope.

(** ** JavaScript strings

    A JavaScript string is a sequence of UTF-16 code units. *)

Module Js.

Definition jsstring := list N.

(** A source literal, for literals made of ASCII characters only. *)
Definition lit (s : string) : jsstring :=
  map N_of_ascii (list_ascii_of_string s).

(** ECMAScript [WhiteSpace] and [LineTerminator] code points: what
    [String.prototype.trim] strips. *)
Definition is_white_space (c : N) : bool :=
  (c =? 0x09) || (c =? 0x0A) || (c =? 0x0B) || (c =? 0x0C) || (c =? 0x0D)
  || (c =? 0x20) || (c =? 0xA0) || (c =? 0x1680)
  || ((0x2000 <=? c) && (c <=? 0x200A))
  || (c =? 0x2028) || (c =? 0x2029) || (c =? 0x202F) || (c =? 0x205F)
  || (c =? 0x3000) || (c =? 0xFEFF).

Fixpoint trimStart (s : jsstring) : jsstring :=
  match s with
  | c :: s' => if is_white_space c then trimStart s' else s
  | [] => []
  end.

Definition trimEnd (s : jsstring) : jsstring := rev (trimStart (rev s)).

(** [s.trim()] *)
Definition trim (s : jsstring) : jsstring := trimEnd (trimStart s).

(** [!s] for a string [s]: only the empty string is falsy. *)
Definition not_string (s : jsstring) : bool :=
  match s with [] => true | _ :: _ => false end.

Definition whitespace_only (s : jsstring) : bool := forallb is_white_space s.

(** Run-time values that can sit in a property of a request or response
    object, or be thrown. *)
Inductive value :=
  | Undefined
  | Str (s : jsstring).

#[global] Instance value_eq_dec : EqDecision value.
Proof. solve_decision. Defined.

(** [o.p]: reading a property that the object does not have gives
    [undefined]. *)
Definition get_prop (o : gmap string value) (p : string) : value :=
  default Undefined (o !! p).

End Js.

Export Js.

(** ** types/chat.ts *)

Inductive Sender := user | bot.

#[global] Instance Sender_eq_dec : EqDecision Sender.
Proof. solve_decision. Defined.

(** [text] is declared [string]; at run time it holds whatever the handler
    stored there, which is [undefined] when the response object lacks the
    property that was read. *)
Record ChatMessage := {
  id : jsstring;
  sender : Sender;
  text : value;
  timestamp : jsstring
}.

#[global] Instance ChatMessage_eq_dec : EqDecision ChatMessage.
Proof. solve_decision. Defined.

(** An interface declaration, as the list of its property names. *)
Definition interface := list string.

Definition ChatRequest : interface := ["message"%string].
Definition ChatResponse : interface := ["reply"%string].

(** An object has the shape an interface declares when its own properties
    are exactly the declared ones. *)
Definition has_shape (o : gmap string value) (i : interface) : Prop :=
  dom o = list_to_set i.

(** ** The environment of a component

    [crypto.randomUUID()] / [nanoid()] and [new Date().toISOString()] read
    the outside world: the n-th identifier drawn and the n-th reading of the
    clock are given by two oracles.  The transport function [sendMessage]
    of [@/lib/api] is an opaque collaborator: a call to it is recorded with
    the request object it was given, and its outcome arrives later. *)

Abbreviation object := (gmap string value).

Record World := {
  uuid_at : nat -> jsstring;
  iso_at : nat -> jsstring;
  uuids_drawn : nat;
  clock_reads : nat
}.

Record Net := {
  outbox : list object;   (* requests handed to sendMessage, oldest first *)
  pending : nat           (* calls issued and not yet settled *)
}.

(** How the promise of a call settles: fulfilled with a response object,
    or rejected with a reason. *)
Inductive Outcome :=
  | Resolved (res : object)
  | Rejected (err : value).

Record Sys (St : Type) := {
  ui : St;
  world : World;
  net : Net
}.
Arguments ui {St} _.
Arguments world {St} _.
Arguments net {St} _.
Arguments Build_Sys {St} _ _ _.

(** ** A state monad with exceptions

    A computation runs on the state of the system and completes normally
    with a value or abruptly with a thrown value; the changes made to the
    state before a throw stay. *)

Inductive completion (A : Type) :=
  | Normal (a : A)
  | Throw (e : value).
Arguments Normal {A} a.
Arguments Throw {A} e.

Definition M (St A : Type) : Type := Sys St -> completion A * Sys St.

Definition ret {St A} (a : A) : M St A := fun s => (Normal a, s).

Definition bind {St A B} (m : M St A) (k : A -> M St B) : M St B :=
  fun s =>
    match m s with
    | (Normal a, s') => k a s'
    | (Throw e, s') => (Throw e, s')
    end.

Notation "x <- m ;; k" := (bind m (fun x => k))
  (at level 100, m at next level, right associativity).
Notation "m ;; k" := (bind m (fun _ => k))
  (at level 100, right associativity).

Definition throw {St A} (e : value) : M St A := fun s => (Throw e, s).

(** [try { body } catch { handler } finally { final }]: the handler runs
    when the body throws (the thrown value is not bound), the final block
    runs in every case, and a final block that completes normally leaves
    the completion of what ran before it. *)
Definition try_catch_finally {St} (body handler final : M St unit)
  : M St unit :=
  fun s =>
    let '(c1, s1) := body s in
    let '(c2, s2) := match c1 with
                     | Normal _ => (c1, s1)
                     | Throw _ => handler s1
                     end in
    let '(c3, s3) := final s2 in
    match c3 with
    | Normal _ => (c2, s3)
    | Throw e => (Throw e, s3)
    end.

Definition get_ui {St} : M St St := fun s => (Normal (ui s), s).

Definition modify_ui {St} (f : St -> St) : M St unit :=
  fun s => (Normal tt, Build_Sys (f (ui s)) (world s) (net s)).

(** [crypto.randomUUID()], [nanoid()] *)
Definition randomUUID {St} : M St jsstring :=
  fun s =>
    let w := world s in
    (Normal (uuid_at w (uuids_drawn w)),
     Build_Sys (ui s)
       {| uuid_at := uuid_at w; iso_at := iso_at w;
          uuids_drawn := S (uuids_drawn w); clock_reads := clock_reads w |}
       (net s)).

(** [new Date().toISOString()] *)
Definition now_toISOString {St} : M St jsstring :=
  fun s =>
    let w := world s in
    (Normal (iso_at w (clock_reads w)),
     Build_Sys (ui s)
       {| uuid_at := uuid_at w; iso_at := iso_at w;
          uuids_drawn := uuids_drawn w; clock_reads := S (clock_reads w) |}
       (net s)).

(** [sendMessage(req)]: the call is issued; the promise it returns is
    settled by the environment. *)
Definition sendMessage {St} (req : object) : M St unit :=
  fun s =>
    (Normal tt,
     Build_Sys (ui s) (world s)
       {| outbox := outbox (net s) ++ [req];
          pending := S (pending (net s)) |}).

(** The environment settles one of the calls in flight. *)
Definition settled {St} : M St unit :=
  fun s =>
    (Normal tt,
     Build_Sys (ui s) (world s)
       {| outbox := outbox (net s);
          pending := Nat.pred (pending (net s)) |}).

(** [await p] when the promise [p] settles with outcome [o]: the value of a
    fulfilled promise, a throw of the reason of a rejected one. *)
Definition await {St} (o : Outcome) : M St object :=
  settled ;;
  match o with
  | Resolved res => ret res
  | Rejected err => throw err
  end.

Definition run {St A} (m : M St A) (s : Sys St) : Sys St := snd (m s).
Definition result {St A} (m : M St A) (s : Sys St) : completion A := fst (m s).

Definition count_sender (who : Sender) (l : list ChatMessage) : nat :=
  length (filter (fun m => sender m = who) l).

(** ** components/ChatWindow *)

Module ChatWindow.

Record State := {
  messages : list ChatMessage;
  input : jsstring;
  isLoading : bool
}.

#[global] Instance State_eq_dec : EqDecision State.
Proof. solve_decision. Defined.

Definition setMessages (f : list ChatMessage -> list ChatMessage)
  : M State unit :=
  modify_ui (fun st => {| messages := f (messages st);
                          input := input st;
                          isLoading := isLoading st |}).

Definition setInput (v : jsstring) : M State unit :=
  modify_ui (fun st => {| messages := messages st;
                          input := v;
                          isLoading := isLoading st |}).

Definition setIsLoading (b : bool) : M State unit :=
  modify_ui (fun st => {| messages := messages st;
                          input := input st;
                          isLoading := b |}).

(** The three [useState] initialisers, run when the component mounts in the
    world [w]; no call has been issued yet. *)
Definition mount (w : World) : Sys State :=
  run (i <- randomUUID ;;
       t <- now_toISOString ;;
       setMessages (fun _ =>
         [ {| id := i;
              sender := bot;
              text := Str (lit "Hi there! How can I help you?");
              timestamp := t |} ]))
      {| ui := {| messages := []; input := []; isLoading := false |};
         world := w;
         net := {| outbox := []; pending := 0 |} |}.

(** [e.preventDefault()] acts on the DOM event only. *)
Definition preventDefault : M State unit := ret tt.

(** [handleSubmit], from its entry to the [await]: the part that runs
    synchronously in the submit event.  [input] is the constant captured by
    the closure of the last render, so the request carries the text as it
    was before [setInput("")].  A step (below) ends with the render that
    follows the event, so at the start of a step the hook state is what the
    last render captured, and [get_ui] reads that. *)
Definition handleSubmit_begin : M State unit :=
  st <- get_ui ;;
  let input := input st in
  preventDefault ;;
  if not_string (trim input) then ret tt
  else
    i <- randomUUID ;;
    t <- now_toISOString ;;
    let userMessage :=
      {| id := i; sender := user; text := Str input; timestamp := t |} in
    setMessages (fun prev => prev ++ [userMessage]) ;;
    setInput [] ;;
    setIsLoading true ;;
    sendMessage {[ "question"%string := Str input ]}.

(** [handleSubmit], from the [await] to its end: the part that runs when
    the promise of [sendMessage] settles with outcome [o]. *)
Definition handleSubmit_resume (o : Outcome) : M State unit :=
  try_catch_finally
    (res <- await o ;;
     i <- randomUUID ;;
     t <- now_toISOString ;;
     let botMessage :=
       {| id := i; sender := bot;
          text := get_prop res "response"; timestamp := t |} in
     setMessages (fun prev => prev ++ [botMessage]))
    (i <- randomUUID ;;
     t <- now_toISOString ;;
     let errorMessage :=
       {| id := i; sender := bot;
          text := Str (lit "Something went wrong. Please try again.");
          timestamp := t |} in
     setMessages (fun prev => prev ++ [errorMessage]))
    (setIsLoading false).

(** What the component renders: one bubble per message, the text input and
    the submit button.  The time printed under a bubble and the effect that
    scrolls to the last bubble act on the page only and are left out. *)
Inductive ButtonChild :=
  | Spinner
  | Label (s : jsstring).

Record Bubble := {
  key : jsstring;
  right_aligned : bool;   (* "text-right" for sender "user" *)
  as_markdown : bool;     (* ReactMarkdown for sender "bot" *)
  body : value
}.

Record View := {
  bubbles : list Bubble;
  input_value : jsstring;
  input_disabled : bool;
  button_disabled : bool;
  button_child : ButtonChild
}.

Definition render (st : State) : View :=
  {| bubbles :=
       map (fun msg =>
              {| key := id msg;
                 right_aligned := bool_decide (sender msg = user);
                 as_markdown := bool_decide (sender msg = bot);
                 body := text msg |})
           (messages st);
     input_value := input st;
     input_disabled := isLoading st;
     button_disabled := isLoading st;
     button_child := if isLoading st then Spinner else Label (lit "Send") |}.

(** The events the component reacts to: typing into the input
    ([onChange]), submitting the form ([onSubmit]) and the settling of a
    call in flight. *)
Inductive Event :=
  | Change (v : jsstring)
  | Submit
  | Settle (o : Outcome).

Definition handle (e : Event) : M State unit :=
  match e with
  | Change v => setInput v
  | Submit => handleSubmit_begin
  | Settle o => handleSubmit_resume o
  end.

(** The body of the component run again, on a re-render.  The argument of
    [useState] for the messages is an expression, not an initialiser
    function: it is evaluated on every render, so every render draws an
    identifier and reads the clock; after the first render React drops the
    value. *)
Definition rerender : M State unit :=
  randomUUID ;;
  now_toISOString ;;
  ret tt.

(** One step of the component: the handler of the event runs, its state
    updates are applied in one batch, and, when they changed the state,
    React renders the component again before the next event is handled (a
    setter called with the value the state has already is no change). *)
Definition step (e : Event) (s : Sys State) : Sys State :=
  let s' := run (handle e) s in
  if bool_decide (ui s' = ui s) then s' else run rerender s'.
Arguments step : simpl never.

(** A call can settle only when one is in flight. *)
Definition possible (e : Event) (s : Sys State) : bool :=
  match e with
  | Settle _ => bool_decide (0 < pending (net s))%nat
  | _ => true
  end.

(** What the rendered form lets the user do: a disabled input cannot be
    typed into, and a form whose only field and whose submit button are
    disabled cannot be submitted from the page. *)
Definition offered (e : Event) (s : Sys State) : bool :=
  match e with
  | Change _ => negb (input_disabled (render (ui s)))
  | Submit => negb (button_disabled (render (ui s)))
  | Settle _ => bool_decide (0 < pending (net s))%nat
  end.

(** Runs of the component from a state: any interleaving of possible
    events, and the interleavings that the rendered page offers. *)
Fixpoint exec (allowed : Event -> Sys State -> bool) (es : list Event)
  (s : Sys State) : option (Sys State) :=
  match es with
  | [] => Some s
  | e :: es' => if allowed e s then exec allowed es' (step e s) else None
  end.

Inductive reachable (allowed : Event -> Sys State -> bool) (w : World)
  : Sys State -> Prop :=
  | reach_mount : reachable allowed w (mount w)
  | reach_step e s :
      reachable allowed w s -> allowed e s = true ->
      reachable allowed w (step e s).

(** The submission of the form carried through: the submit event, then the
    settling of the call it issued. *)
Definition submission (o : Outcome) (s : Sys State) : Sys State :=
  step (Settle o) (step Submit s).

End ChatWindow.

(** ** @tanstack/react-query: [useMutation]

    The library is not part of the repository.  The hook uses three things
    of a mutation whose [mutationFn] is [sendMessage]: [mutate], the
    [onSuccess] / [onError] options and [isPending].  The model follows the
    library's contract for them: [mutate(variables)] marks the mutation
    pending and calls the mutation function once; when that call settles,
    [onSuccess(data)] runs for a fulfilled promise and [onError] for a
    rejected one (or for a throwing [onSuccess]); the status shown is that
    of the call issued last; [mutate] returns nothing and swallows the
    error. *)

Module ReactQuery.

Inductive MutationStatus := Idle | Pending | Success | Error.

#[global] Instance MutationStatus_eq_dec : EqDecision MutationStatus.
Proof. solve_decision. Defined.

Section Mutation.

Context {St : Type}.
Variable set_status : MutationStatus -> M St unit.
Variable onSuccess : object -> M St unit.
Variable onError : M St unit.

Definition mutate (variables : object) : M St unit :=
  set_status Pending ;;
  sendMessage variables.

(** The status changes only for the call that was issued last, the
    [k]-th one counting from 0. *)
Definition notify (k : nat) (st : MutationStatus) : M St unit :=
  fun s =>
    if bool_decide (S k = length (outbox (net s)))
    then set_status st s
    else ret tt s.

Definition settle (k : nat) (o : Outcome) : M St unit :=
  try_catch_finally
    (data <- await o ;;
     onSuccess data ;;
     notify k Success)
    (onError ;;
     notify k Error)
    (ret tt).

End Mutation.

End ReactQuery.

(** ** hooks/useChat *)

Module UseChat.

Import ReactQuery.

Record State := {
  messages : list ChatMessage;
  status : MutationStatus
}.

Definition setMessages (f : list ChatMessage -> list ChatMessage)
  : M State unit :=
  modify_ui (fun st => {| messages := f (messages st);
                          status := status st |}).

Definition set_status (v : MutationStatus) : M State unit :=
  modify_ui (fun st => {| messages := messages st; status := v |}).

(** [useState<ChatMessage[]>([])] and a mutation nobody has called. *)
Definition mount (w : World) : Sys State :=
  {| ui := {| messages := []; status := Idle |};
     world := w;
     net := {| outbox := []; pending := 0 |} |}.

Definition onSuccess (data : object) : M State unit :=
  i <- randomUUID ;;
  t <- now_toISOString ;;
  setMessages (fun prev =>
    prev ++ [ {| id := i; sender := bot;
                 text := get_prop data "reply"; timestamp := t |} ]).

Definition onError : M State unit :=
  i <- randomUUID ;;
  t <- now_toISOString ;;
  setMessages (fun prev =>
    prev ++ [ {| id := i; sender := bot;
                 text := Str (lit "Error contacting server.");
                 timestamp := t |} ]).

Definition send (text : jsstring) : M State unit :=
  i <- randomUUID ;;
  t <- now_toISOString ;;
  setMessages (fun prev =>
    prev ++ [ {| id := i; sender := user;
                 text := Str text; timestamp := t |} ]) ;;
  mutate set_status {[ "message"%string := Str text ]}.

(** [isLoading: mutation.isPending] *)
Definition isLoading (st : State) : bool :=
  bool_decide (status st = Pending).

Inductive Event :=
  | Send (text : jsstring)
  | Settle (k : nat) (o : Outcome).

Definition handle (e : Event) : M State unit :=
  match e with
  | Send text => send text
  | Settle k o => settle set_status onSuccess onError k o
  end.

Definition step (e : Event) (s : Sys State) : Sys State := run (handle e) s.

(** A message sent and the call it issued settled; that call is the one at
    the end of the outbox. *)
Definition submission (text : jsstring) (o : Outcome) (s : Sys State)
  : Sys State :=
  step (Settle (length (outbox (net s))) o) (step (Send text) s).

End UseChat.

(** ** The two call sites of the transport function *)

Inductive CallSite := InChatWindow | InUseChat.

(** The request object a call site hands to [sendMessage] for the text
    [t]: the last entry of the outbox after the submit event. *)
Definition request_written (c : CallSite) (w : World) (t : jsstring)
  : option object :=
  match c with
  | InChatWindow =>
      last (outbox (net (ChatWindow.step ChatWindow.Submit
              (ChatWindow.step (ChatWindow.Change t) (ChatWindow.mount w)))))
  | InUseChat =>
      last (outbox (net (UseChat.step (UseChat.Send t) (UseChat.mount w))))
  end.

(** The text of the message a call site appends when the call for [t]
    resolves with the response object [res]. *)
Definition reply_shown (c : CallSite) (w : World) (t : jsstring)
  (res : object) : option value :=
  match c with
  | InChatWindow =>
      text <$> last (ChatWindow.messages (ui
        (ChatWindow.submission (Resolved res)
           (ChatWindow.step (ChatWindow.Change t) (ChatWindow.mount w)))))
  | InUseChat =>
      text <$> last (UseChat.messages (ui
        (UseChat.submission t (Resolved res) (UseChat.mount w))))
  end.

(** ** What the handlers build

    The records and worlds the handlers produce in a given state, named so
    that the equations below can be read. *)

(** The world once a message has been built: one identifier drawn and the
    clock read once. *)
Definition world_after_message (w : World) : World :=
  {| uuid_at := uuid_at w; iso_at := iso_at w;
     uuids_drawn := S (uuids_drawn w);
     clock_reads := S (clock_reads w) |}.

(** The world once the component has been rendered again: the argument of
    [useState] drew one identifier and read the clock once. *)
Definition world_after_render (w : World) : World :=
  {| uuid_at := uuid_at w; iso_at := iso_at w;
     uuids_drawn := S (uuids_drawn w);
     clock_reads := S (clock_reads w) |}.

(** The message built in the world [w] for sender [who] with text [v]. *)
Definition message_in (w : World) (who : Sender) (v : value) : ChatMessage :=
  {| id := uuid_at w (uuids_drawn w);
     sender := who;
     text := v;
     timestamp := iso_at w (clock_reads w) |}.

(** The text of the bot message with which each path answers an outcome. *)
Definition ChatWindow_answer (o : Outcome) : value :=
  match o with
  | Resolved res => get_prop res "response"
  | Rejected _ => Str (lit "Something went wrong. Please try again.")
  end.

Definition UseChat_answer (o : Outcome) : value :=
  match o with
  | Resolved data => get_prop data "reply"
  | Rejected _ => Str (lit "Error contacting server.")
  end.

(** The status a mutation takes when its call settles. *)
Definition settled_status (o : Outcome) : ReactQuery.MutationStatus :=
  match o with
  | Resolved _ => ReactQuery.Success
  | Rejected _ => ReactQuery.Error
  end.

(** ** Runs of useChat

    Any interleaving of [send] calls and of settlings, a settling being
    possible only when a call is in flight. *)

Module UseChatRun.

Definition possible (e : UseChat.Event) (s : Sys UseChat.State) : bool :=
  match e with
  | UseChat.Send _ => true
  | UseChat.Settle _ _ => bool_decide (0 < pending (net s))%nat
  end.

Fixpoint exec (es : list UseChat.Event) (s : Sys UseChat.State)
  : option (Sys UseChat.State) :=
  match es with
  | [] => Some s
  | e :: es' => if possible e s then exec es' (UseChat.step e s) else None
  end.

End UseChatRun.

(** ** What is read off a history *)

(** The texts of the messages of one sender, oldest first. *)
Definition texts_of (who : Sender) (l : list ChatMessage) : list value :=
  text <$> filter (fun m => sender m = who) l.

(** The property [p] of each request handed to the transport, oldest
    first. *)
Definition sent (p : string) (out : list object) : list value :=
  (fun req => get_prop req p) <$> out.

Definition other (who : Sender) : Sender :=
  match who with user => bot | bot => user end.

(** The senders of [l] take turns, [first] speaking first. *)
Fixpoint alternates (first : Sender) (l : list ChatMessage) : bool :=
  match l with
  | [] => true
  | m :: l' => bool_decide (sender m = first) && alternates (other first) l'
  end.

(** A text has something in it besides white space. *)
Definition has_content (v : value) : bool :=
  match v with
  | Str t => negb (whitespace_only t)
  | Undefined => false
  end.

(** ** Sample data for the concrete runs below *)

Definition sample_world : World :=
  {| uuid_at := fun n => lit "msg-" ++ [N.of_nat n];
     iso_at := fun n => lit "T+" ++ [N.of_nat n];
     uuids_drawn := 0;
     clock_reads := 0 |}.

Definition sample_response : object :=
  {[ "response"%string := Str (lit "Hi!") ]}.

(** A mounted [ChatWindow] in which the user has typed [t]. *)
Definition typed (t : jsstring) : Sys ChatWindow.State :=
  ChatWindow.step (ChatWindow.Change t) (ChatWindow.mount sample_world).

(** * Properties *)

(** ** [trim] and truthiness *)

Lemma trimStart_nil (s : jsstring) :
  trimStart s = [] <-> whitespace_only s = true.
Proof.
  induction s as [|c s IH]; simpl; [tauto|].
  destruct (is_white_space c) eqn:Hc; simpl; [exact IH|].
  split; discriminate.
Qed.

Lemma trimStart_head (s : jsstring) c r :
  trimStart s = c :: r -> is_white_space c = false.
Proof.
  induction s as [|d s IH]; simpl; [discriminate|].
  destruct (is_white_space d) eqn:Hd; [exact IH|].
  intros H; injection H as -> _; exact Hd.
Qed.

Lemma whitespace_only_app (a b : jsstring) :
  whitespace_only (a ++ b) = whitespace_only a && whitespace_only b.
Proof. apply forallb_app. Qed.

Lemma whitespace_only_rev (s : jsstring) :
  whitespace_only (rev s) = whitespace_only s.
Proof.
  induction s as [|c s IH]; simpl; [reflexivity|].
  rewrite whitespace_only_app, IH; simpl.
  rewrite andb_true_r; apply andb_comm.
Qed.

(** [!input.trim()] holds exactly for the strings made of white space
    only, the empty string among them. *)
Lemma not_trim_whitespace_only (s : jsstring) :
  not_string (trim s) = whitespace_only s.
Proof.
  unfold trim, trimEnd.
  destruct (trimStart s) as [|c r] eqn:Hs.
  - simpl. symmetry. apply trimStart_nil, Hs.
  - assert (Hc : is_white_space c = false) by (eapply trimStart_head, Hs).
    assert (Hw : whitespace_only s = false).
    { destruct (whitespace_only s) eqn:E; [|reflexivity].
      apply trimStart_nil in E; congruence. }
    rewrite Hw.
    destruct (trimStart (rev (c :: r))) as [|d q] eqn:Hr.
    + apply trimStart_nil in Hr. rewrite whitespace_only_rev in Hr.
      simpl in Hr. rewrite Hc in Hr. discriminate.
    + simpl. destruct (rev q ++ [d]) eqn:E; [|reflexivity].
      destruct (rev q); discriminate.
Qed.

(** ** The handlers of ChatWindow, as equations *)

Section ChatWindowEquations.

Import ChatWindow.

Variable s : Sys State.

Lemma handleSubmit_begin_blank :
  whitespace_only (input (ui s)) = true ->
  handleSubmit_begin s = (Normal tt, s).
Proof.
  intros H. unfold handleSubmit_begin, bind, get_ui, preventDefault, ret.
  rewrite not_trim_whitespace_only, H. reflexivity.
Qed.

Lemma handleSubmit_begin_text :
  whitespace_only (input (ui s)) = false ->
  handleSubmit_begin s =
    (Normal tt,
     {| ui := {| messages :=
                   messages (ui s)
                   ++ [message_in (world s) user (Str (input (ui s)))];
                 input := [];
                 isLoading := true |};
        world := world_after_message (world s);
        net := {| outbox :=
                    outbox (net s)
                    ++ [ {[ "question"%string := Str (input (ui s)) ]} ];
                  pending := S (pending (net s)) |} |}).
Proof.
  intros H. unfold handleSubmit_begin, bind, get_ui, preventDefault, ret.
  rewrite not_trim_whitespace_only, H. reflexivity.
Qed.

Lemma handleSubmit_resume_eq (o : Outcome) :
  handleSubmit_resume o s =
    (Normal tt,
     {| ui := {| messages :=
                   messages (ui s)
                   ++ [message_in (world s) bot (ChatWindow_answer o)];
                 input := input (ui s);
                 isLoading := false |};
        world := world_after_message (world s);
        net := {| outbox := outbox (net s);
                  pending := Nat.pred (pending (net s)) |} |}).
Proof. destruct o; reflexivity. Qed.

End ChatWindowEquations.

(** ** The handlers of useChat, as equations *)

Section UseChatEquations.

Import ReactQuery UseChat.

Variable s : Sys State.

Lemma send_eq (t : jsstring) :
  send t s =
    (Normal tt,
     {| ui := {| messages :=
                   messages (ui s) ++ [message_in (world s) user (Str t)];
                 status := Pending |};
        world := world_after_message (world s);
        net := {| outbox := outbox (net s)
                            ++ [ {[ "message"%string := Str t ]} ];
                  pending := S (pending (net s)) |} |}).
Proof. reflexivity. Qed.

Lemma settle_eq (k : nat) (o : Outcome) :
  settle set_status onSuccess onError k o s =
    (Normal tt,
     {| ui := {| messages :=
                   messages (ui s)
                   ++ [message_in (world s) bot (UseChat_answer o)];
                 status :=
                   if bool_decide (S k = length (outbox (net s)))
                   then settled_status o else status (ui s) |};
        world := world_after_message (world s);
        net := {| outbox := outbox (net s);
                  pending := Nat.pred (pending (net s)) |} |}).
Proof.
  destruct o; unfold settle, try_catch_finally, bind, notify; simpl;
    case_bool_decide; reflexivity.
Qed.

End UseChatEquations.

(** ** One event of ChatWindow *)

Section ChatWindowSteps.

Import ChatWindow.

Variable s : Sys State.

Lemma snoc_neq {A} (l : list A) (x : A) : l ++ [x] <> l.
Proof.
  intros H. apply (f_equal length) in H. rewrite length_app in H.
  simpl in H. lia.
Qed.

Lemma step_change (v : jsstring) :
  step (Change v) s =
    {| ui := {| messages := messages (ui s);
                input := v;
                isLoading := isLoading (ui s) |};
       world := if bool_decide (v = input (ui s)) then world s
                else world_after_render (world s);
       net := net s |}.
Proof.
  unfold step. cbn [handle]. unfold setInput, modify_ui, run. cbn [snd ui].
  destruct s as [[ms inp ld] w n]. cbn [ui messages input isLoading world net].
  destruct (decide (v = inp)) as [->|Hne].
  - rewrite !bool_decide_eq_true_2 by reflexivity. reflexivity.
  - rewrite !bool_decide_eq_false_2 by congruence. reflexivity.
Qed.

Lemma step_submit_blank :
  whitespace_only (input (ui s)) = true -> step Submit s = s.
Proof.
  intros H. unfold step, run, handle.
  rewrite handleSubmit_begin_blank by exact H. cbn [snd].
  rewrite bool_decide_eq_true_2 by reflexivity. reflexivity.
Qed.

Lemma step_submit_text :
  whitespace_only (input (ui s)) = false ->
  step Submit s =
    {| ui := {| messages :=
                  messages (ui s)
                  ++ [message_in (world s) user (Str (input (ui s)))];
                input := [];
                isLoading := true |};
       world := world_after_render (world_after_message (world s));
       net := {| outbox :=
                   outbox (net s)
                   ++ [ {[ "question"%string := Str (input (ui s)) ]} ];
                 pending := S (pending (net s)) |} |}.
Proof.
  intros H. unfold step, run, handle.
  rewrite handleSubmit_begin_text by exact H. cbn [snd ui].
  rewrite bool_decide_eq_false_2; [reflexivity|].
  intros E. apply (f_equal messages) in E. exact (snoc_neq _ _ E).
Qed.

Lemma step_settle (o : Outcome) :
  step (Settle o) s =
    {| ui := {| messages :=
                  messages (ui s)
                  ++ [message_in (world s) bot (ChatWindow_answer o)];
                input := input (ui s);
                isLoading := false |};
       world := world_after_render (world_after_message (world s));
       net := {| outbox := outbox (net s);
                 pending := Nat.pred (pending (net s)) |} |}.
Proof.
  unfold step, run, handle. rewrite handleSubmit_resume_eq. cbn [snd ui].
  rewrite bool_decide_eq_false_2; [reflexivity|].
  intros E. apply (f_equal messages) in E. exact (snoc_neq _ _ E).
Qed.

(** Every event appends to the message list, and at most one message. *)
Lemma step_appends (e : Event) :
  exists new, messages (ui (step e s)) = messages (ui s) ++ new
              /\ (length new <= 1)%nat.
Proof.
  destruct e as [v| |o].
  - exists []. rewrite step_change; simpl. rewrite app_nil_r. auto.
  - destruct (whitespace_only (input (ui s))) eqn:H.
    + exists []. rewrite step_submit_blank by exact H.
      rewrite app_nil_r. simpl. auto.
    + eexists. rewrite step_submit_text by exact H. simpl. split; eauto.
  - eexists. rewrite step_settle. simpl. split; eauto.
Qed.

End ChatWindowSteps.

(** ** Runs of ChatWindow *)

Section ChatWindowRuns.

Import ChatWindow.

(** In the runs that the rendered form offers, a call is in flight
    exactly while the loading flag is set, and then exactly one. *)
Lemma loading_tracks_pending w s :
  reachable offered w s ->
  pending (net s) = if isLoading (ui s) then 1%nat else 0%nat.
Proof.
  induction 1 as [|e s Hr IH He]; [reflexivity|].
  destruct e as [v| |o]; simpl in He.
  - rewrite step_change; simpl. exact IH.
  - apply negb_true_iff in He. rewrite He in IH.
    destruct (whitespace_only (input (ui s))) eqn:Hb.
    + rewrite step_submit_blank by exact Hb. rewrite He. exact IH.
    + rewrite step_submit_text by exact Hb. simpl. rewrite IH. reflexivity.
  - apply bool_decide_eq_true in He. rewrite step_settle; simpl.
    destruct (isLoading (ui s)); rewrite IH in *; [reflexivity|lia].
Qed.

Lemma count_sender_app who (l k : list ChatMessage) :
  count_sender who (l ++ k) = (count_sender who l + count_sender who k)%nat.
Proof. unfold count_sender. rewrite filter_app, length_app. reflexivity. Qed.

(** In every run, offered by the form or not, each call issued stands for
    one user message, and each call settled for one bot message after the
    greeting. *)
Lemma replies_match_settled_calls w s :
  reachable possible w s ->
  count_sender user (messages (ui s)) = length (outbox (net s))
  /\ (count_sender bot (messages (ui s)) + pending (net s)
      = 1 + count_sender user (messages (ui s)))%nat.
Proof.
  induction 1 as [|e s Hr [IHu IHb] He]; [split; reflexivity|].
  destruct e as [v| |o]; simpl in He.
  - rewrite step_change; simpl. auto.
  - destruct (whitespace_only (input (ui s))) eqn:Hb.
    + rewrite step_submit_blank by exact Hb. auto.
    + rewrite step_submit_text by exact Hb. simpl.
      rewrite !count_sender_app, length_app. simpl.
      unfold count_sender at 2 4 6. simpl. lia.
  - apply bool_decide_eq_true in He. rewrite step_settle; simpl.
    rewrite !count_sender_app.
    unfold count_sender at 2 4 6. simpl. lia.
Qed.

End ChatWindowRuns.

Section ChatWindowExec.

Import ChatWindow.

Variable allowed : Event -> Sys State -> bool.

Lemma exec_app es1 es2 s :
  exec allowed (es1 ++ es2) s
  = match exec allowed es1 s with
    | Some s' => exec allowed es2 s'
    | None => None
    end.
Proof.
  revert s. induction es1 as [|e es1 IH]; intros s; simpl; [reflexivity|].
  destruct (allowed e s); [apply IH|reflexivity].
Qed.

(** The states a run reaches are the reachable ones. *)
Lemma exec_reachable w es s :
  exec allowed es (mount w) = Some s -> reachable allowed w s.
Proof.
  revert s. induction es as [|e es IH] using rev_ind; intros s; simpl.
  - intros [= <-]. constructor.
  - rewrite exec_app.
    destruct (exec allowed es (mount w)) as [s'|] eqn:E; [|discriminate].
    simpl. destruct (allowed e s') eqn:Ha; [|discriminate].
    intros [= <-]. constructor; [apply IH; reflexivity|exact Ha].
Qed.

(** A run only ever appends to the message list. *)
Lemma exec_appends es s s' :
  exec allowed es s = Some s' ->
  messages (ui s) `prefix_of` messages (ui s').
Proof.
  revert s. induction es as [|e es IH]; intros s; simpl.
  - intros [= <-]. reflexivity.
  - destruct (allowed e s); [|discriminate]. intros H.
    etrans; [|apply IH, H].
    destruct (step_appends s e) as (new & -> & _). by apply prefix_app_r.
Qed.

End ChatWindowExec.

(** ** One event of useChat *)

Section UseChatSteps.

Import ReactQuery UseChat.

Variable s : Sys State.

Lemma step_send (t : jsstring) :
  step (Send t) s =
    {| ui := {| messages :=
                  messages (ui s) ++ [message_in (world s) user (Str t)];
                status := Pending |};
       world := world_after_message (world s);
       net := {| outbox := outbox (net s)
                           ++ [ {[ "message"%string := Str t ]} ];
                 pending := S (pending (net s)) |} |}.
Proof. reflexivity. Qed.

Lemma step_settled (k : nat) (o : Outcome) :
  step (Settle k o) s =
    {| ui := {| messages :=
                  messages (ui s)
                  ++ [message_in (world s) bot (UseChat_answer o)];
                status :=
                  if bool_decide (S k = length (outbox (net s)))
                  then settled_status o else status (ui s) |};
       world := world_after_message (world s);
       net := {| outbox := outbox (net s);
                 pending := Nat.pred (pending (net s)) |} |}.
Proof. unfold step, run, handle. rewrite settle_eq. reflexivity. Qed.

End UseChatSteps.

Lemma submission_eq (s : Sys UseChat.State) (t : jsstring) (o : Outcome) :
  UseChat.submission t o s =
    {| ui := {| UseChat.messages :=
                  UseChat.messages (ui s)
                  ++ [message_in (world s) user (Str t);
                      message_in (world_after_message (world s)) bot
                        (UseChat_answer o)];
                UseChat.status := settled_status o |};
       world := world_after_message (world_after_message (world s));
       net := {| outbox := outbox (net s)
                           ++ [ {[ "message"%string := Str t ]} ];
                 pending := pending (net s) |} |}.
Proof.
  unfold UseChat.submission. rewrite step_send, step_settled. simpl.
  rewrite length_app, Nat.add_comm. simpl.
  rewrite bool_decide_eq_true_2 by reflexivity.
  rewrite <- app_assoc. reflexivity.
Qed.

(** ** The shapes of the objects written at the two call sites *)

Lemma question_object_not_ChatRequest (v : value) :
  ~ has_shape ({[ "question"%string := v ]} : object) ChatRequest.
Proof.
  unfold has_shape, ChatRequest. rewrite dom_singleton_L. simpl.
  intros H. assert (Hin : "question"%string ∈ ({[ "question"%string ]} : gset string))
    by set_solver.
  rewrite H in Hin. set_solver.
Qed.

Lemma message_object_ChatRequest (v : value) :
  has_shape ({[ "message"%string := v ]} : object) ChatRequest.
Proof.
  unfold has_shape, ChatRequest. rewrite dom_singleton_L. simpl. set_solver.
Qed.

Lemma reply_object_ChatResponse (v : value) :
  has_shape ({[ "reply"%string := v ]} : object) ChatResponse.
Proof.
  unfold has_shape, ChatResponse. rewrite dom_singleton_L. simpl. set_solver.
Qed.

(** * The claims *)







(** C5.  The submit event, for an input whose trimmed form is not empty,
    appends exactly one user message carrying the input, clears the input
    field, sets the loading flag and issues exactly one call, all of it
    before the call settles; [send] of useChat likewise appends one user
    message, issues one call and leaves the mutation pending. *)
Theorem submit_appends_user_and_issues_one_call
  (s : Sys ChatWindow.State) (h : Sys UseChat.State) (t : jsstring) :
  not_string (trim (ChatWindow.input (ui s))) = false ->
  let s' := ChatWindow.step ChatWindow.Submit s in
  let h' := UseChat.step (UseChat.Send t) h in
  ChatWindow.messages (ui s')
  = ChatWindow.messages (ui s)
    ++ [message_in (world s) user (Str (ChatWindow.input (ui s)))]
  /\ ChatWindow.input (ui s') = []
  /\ ChatWindow.isLoading (ui s') = true
  /\ outbox (net s')
     = outbox (net s)
       ++ [ {[ "question"%string := Str (ChatWindow.input (ui s)) ]} ]
  /\ pending (net s') = S (pending (net s))
  /\ UseChat.messages (ui h')
     = UseChat.messages (ui h) ++ [message_in (world h) user (Str t)]
  /\ UseChat.isLoading (ui h') = true
  /\ outbox (net h') = outbox (net h) ++ [ {[ "message"%string := Str t ]} ]
  /\ pending (net h') = S (pending (net h)).
Proof.
  intros Hs s' h'. subst s' h'. rewrite not_trim_whitespace_only in Hs.
  rewrite step_submit_text by exact Hs. rewrite step_send. simpl.
  repeat split; reflexivity.
Qed.

Lemma submit_appends_user_and_issues_one_call_witness :
  not_string (trim (ChatWindow.input (ui (typed (lit "Hello"))))) = false
  /\ ChatWindow.messages (ui (ChatWindow.step ChatWindow.Submit
                                (typed (lit "Hello"))))
     = ChatWindow.messages (ui (typed (lit "Hello")))
       ++ [message_in (world (typed (lit "Hello"))) user
             (Str (ChatWindow.input (ui (typed (lit "Hello")))))].
Proof.
  split; [vm_compute; reflexivity|].
  apply (submit_appends_user_and_issues_one_call (typed (lit "Hello"))
           (UseChat.mount sample_world) (lit "Hello")).
  vm_compute; reflexivity.
Defined.

(** C6, as amended.  When the call is rejected, exactly one message is
    appended: a bot message with the fixed fallback text of the path, and
    the handler completes normally: the rejection does not leave it.  In
    ChatWindow the loading flag is false afterwards; in useChat the flag,
    [mutation.isPending], is false afterwards when the call that was
    rejected is the one issued last, which it is when a message was sent
    and its call settled next, and it keeps its value otherwise. *)
Theorem rejected_call_appends_fallback
  (s : Sys ChatWindow.State) (h : Sys UseChat.State) (t : jsstring)
  (k : nat) (err : value) :
  ChatWindow.messages (ui (ChatWindow.step (ChatWindow.Settle (Rejected err)) s))
  = ChatWindow.messages (ui s)
    ++ [message_in (world s) bot
          (Str (lit "Something went wrong. Please try again."))]
  /\ ChatWindow.isLoading
       (ui (ChatWindow.step (ChatWindow.Settle (Rejected err)) s)) = false
  /\ result (ChatWindow.handle (ChatWindow.Settle (Rejected err))) s = Normal tt
  /\ UseChat.messages (ui (UseChat.step (UseChat.Settle k (Rejected err)) h))
     = UseChat.messages (ui h)
       ++ [message_in (world h) bot (Str (lit "Error contacting server."))]
  /\ UseChat.isLoading (ui (UseChat.step (UseChat.Settle k (Rejected err)) h))
     = (if bool_decide (S k = length (outbox (net h))) then false
        else UseChat.isLoading (ui h))
  /\ UseChat.isLoading (ui (UseChat.submission t (Rejected err) h)) = false
  /\ result (UseChat.handle (UseChat.Settle k (Rejected err))) h = Normal tt.
Proof.
  rewrite step_settle, step_settled, submission_eq.
  unfold result, ChatWindow.handle, UseChat.handle.
  rewrite handleSubmit_resume_eq, settle_eq.
  cbn [fst ui ChatWindow.messages ChatWindow.isLoading UseChat.messages
       UseChat.status ChatWindow_answer UseChat_answer].
  unfold UseChat.isLoading. cbn [UseChat.status].
  split_and!; try reflexivity.
  destruct (bool_decide (S k = length (outbox (net h)))); reflexivity.
Qed.

(** C6 as stated fails for the loading flag of useChat: with [send("a")]
    and [send("b")] both in flight, the rejection of the first call appends
    its fallback message and leaves the flag true, the second call being
    still in flight. *)
Lemma rejected_call_leaves_hook_loading :
  (fun s => (UseChat.isLoading (ui s), pending (net s),
             text <$> last (UseChat.messages (ui s))))
    <$> UseChatRun.exec
          [UseChat.Send (lit "a"); UseChat.Send (lit "b");
           UseChat.Settle 0 (Rejected Undefined)]
          (UseChat.mount sample_world)
  = Some (true, 1%nat, Some (Str (lit "Error contacting server."))).
Proof. vm_compute. reflexivity. Qed.

(** C4, as amended.  In ChatWindow, submitting an input that is empty or
    made of white space only changes nothing: the message list, the rest of
    the component state and the outbox stay as they were, so no message is
    appended and no call is issued. *)
Theorem blank_submit_changes_nothing (s : Sys ChatWindow.State) :
  whitespace_only (ChatWindow.input (ui s)) = true ->
  ChatWindow.step ChatWindow.Submit s = s
  /\ ChatWindow.messages (ui (ChatWindow.step ChatWindow.Submit s))
     = ChatWindow.messages (ui s)
  /\ outbox (net (ChatWindow.step ChatWindow.Submit s)) = outbox (net s)
  /\ pending (net (ChatWindow.step ChatWindow.Submit s)) = pending (net s).
Proof.
  intros H. rewrite step_submit_blank by exact H. repeat split; reflexivity.
Qed.

Lemma blank_submit_changes_nothing_witness :
  whitespace_only (ChatWindow.input (ui (typed (lit "   ")))) = true
  /\ ChatWindow.step ChatWindow.Submit (typed (lit "   "))
     = typed (lit "   ").
Proof.
  split; [vm_compute; reflexivity|].
  apply (blank_submit_changes_nothing (typed (lit "   "))).
  vm_compute; reflexivity.
Defined.

(** C4 as stated fails for the other entry point: [send] of useChat, given
    three spaces on a freshly mounted hook, appends a user message and
    issues a call. *)
Lemma send_blank_appends_and_calls :
  whitespace_only (lit "   ") = true
  /\ UseChat.messages
       (ui (UseChat.step (UseChat.Send (lit "   "))
              (UseChat.mount sample_world)))
     = [message_in sample_world user (Str (lit "   "))]
  /\ UseChat.messages (ui (UseChat.mount sample_world)) = []
  /\ outbox (net (UseChat.step (UseChat.Send (lit "   "))
                    (UseChat.mount sample_world)))
     = [ {[ "message"%string := Str (lit "   ") ]} ]
  /\ outbox (net (UseChat.mount sample_world)) = [].
Proof. repeat split; reflexivity. Qed.

(** C7.  In the runs the rendered form offers, the loading flag is false at
    mount, a call is in flight exactly while the flag is true, and an event
    leaves the flag true only when it is the submission of an input whose
    trimmed form is not empty; the settling of the call, resolved or
    rejected, makes it false. *)
Theorem loading_flag_idle_sending_idle
  (w : World) (es : list ChatWindow.Event) (s : Sys ChatWindow.State) :
  ChatWindow.exec ChatWindow.offered es (ChatWindow.mount w) = Some s ->
  ChatWindow.isLoading (ui (ChatWindow.mount w)) = false
  /\ pending (net s) = (if ChatWindow.isLoading (ui s) then 1%nat else 0%nat)
  /\ forall e, ChatWindow.offered e s = true ->
       ChatWindow.isLoading (ui (ChatWindow.step e s))
       = match e with
         | ChatWindow.Submit =>
             negb (not_string (trim (ChatWindow.input (ui s))))
         | ChatWindow.Change _ => false
         | ChatWindow.Settle _ => false
         end.
Proof.
  intros Hrun. apply exec_reachable in Hrun.
  pose proof (loading_tracks_pending _ _ Hrun) as Hp.
  split; [reflexivity|]. split; [exact Hp|].
  intros [v| |o] He; simpl in He.
  - rewrite step_change. simpl. apply negb_true_iff, He.
  - apply negb_true_iff in He. rewrite not_trim_whitespace_only.
    destruct (whitespace_only (ChatWindow.input (ui s))) eqn:Hb.
    + rewrite step_submit_blank by exact Hb. exact He.
    + rewrite step_submit_text by exact Hb. reflexivity.
  - rewrite step_settle. reflexivity.
Qed.

Lemma loading_flag_idle_sending_idle_witness :
  ChatWindow.exec ChatWindow.offered
    [ChatWindow.Change (lit "Hello"); ChatWindow.Submit]
    (ChatWindow.mount sample_world)
  = Some (ChatWindow.step ChatWindow.Submit (typed (lit "Hello")))
  /\ pending (net (ChatWindow.step ChatWindow.Submit (typed (lit "Hello"))))
     = (if ChatWindow.isLoading
             (ui (ChatWindow.step ChatWindow.Submit (typed (lit "Hello"))))
        then 1%nat else 0%nat).
Proof.
  split; [vm_compute; reflexivity|].
  apply (loading_flag_idle_sending_idle sample_world
           [ChatWindow.Change (lit "Hello"); ChatWindow.Submit]).
  vm_compute; reflexivity.
Defined.

(** C8.  In the runs the rendered form offers, the input and the submit
    button are disabled exactly while the loading flag is true, the form
    offers a submission exactly when no call is in flight, and there are
    never two calls in flight. *)
Theorem no_second_submission_while_loading
  (w : World) (es : list ChatWindow.Event) (s : Sys ChatWindow.State) :
  ChatWindow.exec ChatWindow.offered es (ChatWindow.mount w) = Some s ->
  ChatWindow.input_disabled (ChatWindow.render (ui s))
  = ChatWindow.isLoading (ui s)
  /\ ChatWindow.button_disabled (ChatWindow.render (ui s))
     = ChatWindow.isLoading (ui s)
  /\ ChatWindow.offered ChatWindow.Submit s
     = bool_decide (pending (net s) = 0%nat)
  /\ (pending (net s) <= 1)%nat
  /\ (ChatWindow.isLoading (ui s) = true ->
      ChatWindow.exec ChatWindow.offered (es ++ [ChatWindow.Submit])
        (ChatWindow.mount w) = None).
Proof.
  intros Hrun. pose proof (exec_reachable _ _ _ _ Hrun) as Hr.
  pose proof (loading_tracks_pending _ _ Hr) as Hp.
  split; [reflexivity|]. split; [reflexivity|].
  rewrite exec_app, Hrun. simpl. rewrite Hp.
  destruct (ChatWindow.isLoading (ui s)); simpl;
    repeat split; auto; discriminate.
Qed.

Lemma no_second_submission_while_loading_witness :
  ChatWindow.exec ChatWindow.offered
    [ChatWindow.Change (lit "Hello"); ChatWindow.Submit]
    (ChatWindow.mount sample_world)
  = Some (ChatWindow.step ChatWindow.Submit (typed (lit "Hello")))
  /\ ChatWindow.offered ChatWindow.Submit
       (ChatWindow.step ChatWindow.Submit (typed (lit "Hello")))
     = bool_decide
         (pending (net (ChatWindow.step ChatWindow.Submit
                          (typed (lit "Hello")))) = 0%nat).
Proof.
  split; [vm_compute; reflexivity|].
  apply (no_second_submission_while_loading sample_world
           [ChatWindow.Change (lit "Hello"); ChatWindow.Submit]).
  vm_compute; reflexivity.
Defined.

(** The gate is in the rendered form only: [handleSubmit] does not look at
    the loading flag, so submit events dispatched past the form overlap. *)
Example submissions_past_the_form_overlap :
  (pending <$> (net <$>
     ChatWindow.exec ChatWindow.possible
       [ChatWindow.Change (lit "a"); ChatWindow.Submit;
        ChatWindow.Change (lit "b"); ChatWindow.Submit]
       (ChatWindow.mount sample_world))) = Some 2%nat.
Proof. reflexivity. Qed.

(** C9.  Every event, in ChatWindow and in useChat, only appends to the
    message list: the list before the event is a prefix of the list after
    it, so the messages already there stay, each at its place and equal to
    what it was. *)
Theorem message_list_is_append_only
  (s : Sys ChatWindow.State) (e : ChatWindow.Event)
  (h : Sys UseChat.State) (e' : UseChat.Event) :
  ChatWindow.messages (ui s)
    `prefix_of` ChatWindow.messages (ui (ChatWindow.step e s))
  /\ take (length (ChatWindow.messages (ui s)))
          (ChatWindow.messages (ui (ChatWindow.step e s)))
     = ChatWindow.messages (ui s)
  /\ UseChat.messages (ui h)
       `prefix_of` UseChat.messages (ui (UseChat.step e' h))
  /\ take (length (UseChat.messages (ui h)))
          (UseChat.messages (ui (UseChat.step e' h)))
     = UseChat.messages (ui h).
Proof.
  destruct (step_appends s e) as (new & -> & _).
  assert (Hh : exists new', UseChat.messages (ui (UseChat.step e' h))
                            = UseChat.messages (ui h) ++ new').
  { destruct e' as [t|k o]; eexists.
    - rewrite step_send. reflexivity.
    - rewrite step_settled. reflexivity. }
  destruct Hh as (new' & ->).
  rewrite !take_app_length.
  repeat split; auto using prefix_app_r.
Qed.

(** C10.  Before any event, the message list of ChatWindow holds exactly
    one message, the bot greeting, and no call has been issued; the message
    list of useChat is empty. *)
Theorem initial_message_lists (w : World) :
  ChatWindow.messages (ui (ChatWindow.mount w))
  = [message_in w bot (Str (lit "Hi there! How can I help you?"))]
  /\ outbox (net (ChatWindow.mount w)) = []
  /\ count_sender user (ChatWindow.messages (ui (ChatWindow.mount w))) = 0%nat
  /\ UseChat.messages (ui (UseChat.mount w)) = [].
Proof. repeat split; reflexivity. Qed.

(** C2, as amended.  The call site in ChatWindow writes the request with
    the property [question], which is not the shape [ChatRequest] declares,
    and shows the property [response] of the response, so that a response
    of the declared shape [{ reply }] is shown as [undefined]; the call
    site in useChat writes [message] and shows [reply], as declared. *)
Theorem call_site_fields (w : World) (t : jsstring) (res : object) (r : value) :
  not_string (trim t) = false ->
  request_written InChatWindow w t = Some {[ "question"%string := Str t ]}
  /\ ~ has_shape ({[ "question"%string := Str t ]} : object) ChatRequest
  /\ reply_shown InChatWindow w t res = Some (get_prop res "response")
  /\ reply_shown InChatWindow w t {[ "reply"%string := r ]} = Some Undefined
  /\ request_written InUseChat w t = Some {[ "message"%string := Str t ]}
  /\ has_shape ({[ "message"%string := Str t ]} : object) ChatRequest
  /\ reply_shown InUseChat w t res = Some (get_prop res "reply")
  /\ reply_shown InUseChat w t {[ "reply"%string := r ]} = Some r.
Proof.
  intros Ht. rewrite not_trim_whitespace_only in Ht.
  assert (Hc : forall res', reply_shown InChatWindow w t res'
                            = Some (get_prop res' "response")).
  { intros res'. unfold reply_shown, ChatWindow.submission.
    rewrite step_settle. cbn [ui ChatWindow.messages].
    rewrite last_snoc. reflexivity. }
  assert (Hu : forall res', reply_shown InUseChat w t res'
                            = Some (get_prop res' "reply")).
  { intros res'. unfold reply_shown. rewrite submission_eq. simpl.
    reflexivity. }
  split_and!.
  - unfold request_written.
    rewrite step_submit_text by (rewrite step_change; exact Ht).
    rewrite step_change. reflexivity.
  - apply question_object_not_ChatRequest.
  - apply Hc.
  - rewrite Hc. reflexivity.
  - reflexivity.
  - apply message_object_ChatRequest.
  - apply Hu.
  - rewrite Hu. unfold get_prop. rewrite lookup_singleton_eq. reflexivity.
Qed.

Lemma call_site_fields_witness :
  not_string (trim (lit "Hello")) = false
  /\ request_written InChatWindow sample_world (lit "Hello")
     = Some {[ "question"%string := Str (lit "Hello") ]}.
Proof.
  split; [vm_compute; reflexivity|].
  apply (call_site_fields sample_world (lit "Hello") sample_response
           (Str (lit "Hi!"))).
  vm_compute; reflexivity.
Defined.

(** C2 as stated, for every call site, fails at the call site of useChat:
    for the text "Hello" it writes a request of the declared shape
    [ChatRequest], and of a response of the declared shape [ChatResponse]
    it shows the declared property [reply]. *)
Lemma useChat_call_site_follows_declarations :
  request_written InUseChat sample_world (lit "Hello")
  = Some {[ "message"%string := Str (lit "Hello") ]}
  /\ has_shape ({[ "message"%string := Str (lit "Hello") ]} : object)
       ChatRequest
  /\ has_shape ({[ "reply"%string := Str (lit "Hi!") ]} : object)
       ChatResponse
  /\ reply_shown InUseChat sample_world (lit "Hello")
       {[ "reply"%string := Str (lit "Hi!") ]}
     = Some (Str (lit "Hi!")).
Proof.
  split_and!.
  - reflexivity.
  - apply message_object_ChatRequest.
  - apply reply_object_ChatResponse.
  - reflexivity.
Qed.

(** * Further properties of the code *)

(** ** Invariants of runs *)

Lemma exec_invariant allowed (P : Sys ChatWindow.State -> Prop) :
  (forall e s, P s -> allowed e s = true -> P (ChatWindow.step e s)) ->
  forall es s s', P s -> ChatWindow.exec allowed es s = Some s' -> P s'.
Proof.
  intros Hstep es. induction es as [|e es IH]; intros s s' Hs; simpl.
  - intros [= <-]. exact Hs.
  - destruct (allowed e s) eqn:Ha; [|discriminate].
    apply IH, Hstep; assumption.
Qed.

Lemma hook_exec_invariant (P : Sys UseChat.State -> Prop) :
  (forall e s, P s -> UseChatRun.possible e s = true ->
               P (UseChat.step e s)) ->
  forall es s s', P s -> UseChatRun.exec es s = Some s' -> P s'.
Proof.
  intros Hstep es. induction es as [|e es IH]; intros s s' Hs; simpl.
  - intros [= <-]. exact Hs.
  - destruct (UseChatRun.possible e s) eqn:Ha; [|discriminate].
    apply IH, Hstep; assumption.
Qed.

(** The three events of ChatWindow, the submit event split on the guard. *)
Ltac chat_event e s :=
  let Hb := fresh "Hblank" in
  destruct e as [?v| |?o];
  [ rewrite (step_change s)
  | destruct (whitespace_only (ChatWindow.input (ui s))) eqn:Hb;
    [ rewrite (step_submit_blank s Hb) | rewrite (step_submit_text s Hb) ]
  | rewrite (step_settle s) ].

Ltac hook_event e s :=
  destruct e as [?t|?k ?o];
  [ rewrite (step_send s) | rewrite (step_settled s) ].

(** ** Submitting again *)

(** X1.  A second submit event handled after the render that follows the
    first one, with nothing typed in between, does nothing: the first one
    cleared the input, the render gave the handler the cleared input, and
    the guard of [handleSubmit] returns. *)
Theorem submit_twice_is_submit_once (s : Sys ChatWindow.State) :
  ChatWindow.step ChatWindow.Submit (ChatWindow.step ChatWindow.Submit s)
  = ChatWindow.step ChatWindow.Submit s.
Proof.
  destruct (whitespace_only (ChatWindow.input (ui s))) eqn:Hb.
  - rewrite !(step_submit_blank s Hb). reflexivity.
  - rewrite (step_submit_text s Hb). apply step_submit_blank. reflexivity.
Qed.

(** X2.  A submission whose call is rejected is not retried and the text is
    not put back: the outbox holds the one request, no call is in flight,
    the input is empty, and a further submit event does nothing. *)
Theorem rejected_submission_is_final
  (s : Sys ChatWindow.State) (err : value) :
  not_string (trim (ChatWindow.input (ui s))) = false ->
  let s' := ChatWindow.submission (Rejected err) s in
  outbox (net s')
  = outbox (net s)
    ++ [ {[ "question"%string := Str (ChatWindow.input (ui s)) ]} ]
  /\ pending (net s') = pending (net s)
  /\ ChatWindow.input (ui s') = []
  /\ ChatWindow.step ChatWindow.Submit s' = s'.
Proof.
  intros Hs s'. subst s'. rewrite not_trim_whitespace_only in Hs.
  unfold ChatWindow.submission.
  rewrite (step_submit_text s Hs), step_settle. simpl.
  split_and!; [reflexivity|reflexivity|reflexivity|].
  apply step_submit_blank. reflexivity.
Qed.

Lemma rejected_submission_is_final_witness :
  not_string (trim (ChatWindow.input (ui (typed (lit "Hello"))))) = false
  /\ ChatWindow.input
       (ui (ChatWindow.submission (Rejected Undefined) (typed (lit "Hello"))))
     = [].
Proof.
  split; [vm_compute; reflexivity|].
  apply (rejected_submission_is_final (typed (lit "Hello")) Undefined).
  vm_compute; reflexivity.
Defined.

(** X3.  A call that resolves with a response object lacking the property
    the path reads still counts as a success: the bot message appended has
    the text [undefined], not the fallback text, in ChatWindow (property
    [response]) and in useChat (property [reply]). *)
Theorem missing_reply_property_shows_undefined
  (s : Sys ChatWindow.State) (h : Sys UseChat.State) (k : nat)
  (res data : object) :
  res !! "response"%string = None ->
  data !! "reply"%string = None ->
  ChatWindow.messages
    (ui (ChatWindow.step (ChatWindow.Settle (Resolved res)) s))
  = ChatWindow.messages (ui s) ++ [message_in (world s) bot Undefined]
  /\ UseChat.messages (ui (UseChat.step (UseChat.Settle k (Resolved data)) h))
     = UseChat.messages (ui h) ++ [message_in (world h) bot Undefined].
Proof.
  intros Hr Hd. rewrite step_settle, step_settled. simpl.
  unfold get_prop. rewrite Hr, Hd. split; reflexivity.
Qed.

Lemma missing_reply_property_shows_undefined_witness :
  (({[ "reply"%string := Str (lit "Hi!") ]} : object) !! "response"%string
   = None
   /\ sample_response !! "reply"%string = None)
  /\ ChatWindow.messages
       (ui (ChatWindow.step
              (ChatWindow.Settle
                 (Resolved {[ "reply"%string := Str (lit "Hi!") ]}))
              (typed (lit "Hello"))))
     = ChatWindow.messages (ui (typed (lit "Hello")))
       ++ [message_in (world (typed (lit "Hello"))) bot Undefined].
Proof.
  split; [split; reflexivity|].
  apply (missing_reply_property_shows_undefined (typed (lit "Hello"))
           (UseChat.mount sample_world) 0
           {[ "reply"%string := Str (lit "Hi!") ]} sample_response);
    vm_compute; reflexivity.
Defined.

(** ** What every run of ChatWindow keeps *)

Lemma texts_of_app who (l k : list ChatMessage) :
  texts_of who (l ++ k) = texts_of who l ++ texts_of who k.
Proof. unfold texts_of. rewrite filter_app, fmap_app. reflexivity. Qed.

Lemma sent_app p (l k : list object) : sent p (l ++ k) = sent p l ++ sent p k.
Proof. apply fmap_app. Qed.

(** X4.  In every run of ChatWindow, through the form or past it, there
    are as many user messages as calls issued, and as many bot messages as
    calls settled, the greeting apart. *)
Theorem messages_count_calls
  (w : World) (es : list ChatWindow.Event) (s : Sys ChatWindow.State) :
  ChatWindow.exec ChatWindow.possible es (ChatWindow.mount w) = Some s ->
  count_sender user (ChatWindow.messages (ui s)) = length (outbox (net s))
  /\ (count_sender bot (ChatWindow.messages (ui s)) + pending (net s)
      = 1 + length (outbox (net s)))%nat.
Proof.
  apply (exec_invariant ChatWindow.possible (fun s =>
    count_sender user (ChatWindow.messages (ui s)) = length (outbox (net s))
    /\ (count_sender bot (ChatWindow.messages (ui s)) + pending (net s)
        = 1 + length (outbox (net s)))%nat)); [|split; reflexivity].
  clear. intros e s [Hu Hb] He. chat_event e s; simpl in *.
  - auto.
  - auto.
  - rewrite !count_sender_app, length_app. simpl.
    unfold count_sender at 2 4. simpl. lia.
  - apply bool_decide_eq_true in He. rewrite !count_sender_app.
    unfold count_sender at 2 4. simpl. lia.
Qed.

Lemma messages_count_calls_witness :
  ChatWindow.exec ChatWindow.possible
    [ChatWindow.Change (lit "a"); ChatWindow.Submit;
     ChatWindow.Change (lit "b"); ChatWindow.Submit;
     ChatWindow.Settle (Rejected Undefined)]
    (ChatWindow.mount sample_world)
  = Some (ChatWindow.step (ChatWindow.Settle (Rejected Undefined))
            (ChatWindow.step ChatWindow.Submit
               (ChatWindow.step (ChatWindow.Change (lit "b"))
                  (ChatWindow.step ChatWindow.Submit (typed (lit "a"))))))
  /\ count_sender user
       (ChatWindow.messages
          (ui (ChatWindow.step (ChatWindow.Settle (Rejected Undefined))
                 (ChatWindow.step ChatWindow.Submit
                    (ChatWindow.step (ChatWindow.Change (lit "b"))
                       (ChatWindow.step ChatWindow.Submit
                          (typed (lit "a"))))))))
     = length
         (outbox
            (net (ChatWindow.step (ChatWindow.Settle (Rejected Undefined))
                    (ChatWindow.step ChatWindow.Submit
                       (ChatWindow.step (ChatWindow.Change (lit "b"))
                          (ChatWindow.step ChatWindow.Submit
                             (typed (lit "a")))))))).
Proof.
  split; [vm_compute; reflexivity|].
  apply (messages_count_calls sample_world
           [ChatWindow.Change (lit "a"); ChatWindow.Submit;
            ChatWindow.Change (lit "b"); ChatWindow.Submit;
            ChatWindow.Settle (Rejected Undefined)]).
  vm_compute; reflexivity.
Defined.

(** X5.  In every run of ChatWindow, the texts of the user messages are, in
    order, the questions handed to the transport: what the history shows as
    said by the user is what was sent, untrimmed. *)
Theorem shown_is_sent
  (w : World) (es : list ChatWindow.Event) (s : Sys ChatWindow.State) :
  ChatWindow.exec ChatWindow.possible es (ChatWindow.mount w) = Some s ->
  texts_of user (ChatWindow.messages (ui s))
  = sent "question" (outbox (net s)).
Proof.
  apply (exec_invariant ChatWindow.possible (fun s =>
    texts_of user (ChatWindow.messages (ui s))
    = sent "question" (outbox (net s)))); [|reflexivity].
  clear. intros e s IH He. chat_event e s; simpl.
  - exact IH.
  - exact IH.
  - rewrite texts_of_app, sent_app, IH. reflexivity.
  - rewrite texts_of_app, IH. apply app_nil_r.
Qed.

Lemma shown_is_sent_witness :
  ChatWindow.exec ChatWindow.possible
    [ChatWindow.Change (lit " Hello "); ChatWindow.Submit]
    (ChatWindow.mount sample_world)
  = Some (ChatWindow.step ChatWindow.Submit (typed (lit " Hello ")))
  /\ texts_of user
       (ChatWindow.messages
          (ui (ChatWindow.step ChatWindow.Submit (typed (lit " Hello ")))))
     = sent "question"
         (outbox (net (ChatWindow.step ChatWindow.Submit
                         (typed (lit " Hello "))))).
Proof.
  split; [vm_compute; reflexivity|].
  apply (shown_is_sent sample_world
           [ChatWindow.Change (lit " Hello "); ChatWindow.Submit]).
  vm_compute; reflexivity.
Defined.

(** X6.  In every run of ChatWindow, every request handed to the transport
    has the one property [question], and its value is a string with
    something in it besides white space: a blank question is never sent. *)
Theorem no_blank_question_is_sent
  (w : World) (es : list ChatWindow.Event) (s : Sys ChatWindow.State) :
  ChatWindow.exec ChatWindow.possible es (ChatWindow.mount w) = Some s ->
  Forall (fun req : object =>
            dom req = ({[ "question"%string ]} : gset string)
            /\ has_content (get_prop req "question") = true)
         (outbox (net s)).
Proof.
  apply (exec_invariant ChatWindow.possible (fun s =>
    Forall (fun req : object =>
              dom req = ({[ "question"%string ]} : gset string)
              /\ has_content (get_prop req "question") = true)
           (outbox (net s)))); [|constructor].
  clear. intros e s IH He. chat_event e s; simpl; try exact IH.
  apply Forall_app. split; [exact IH|].
  constructor; [|constructor]. split.
  - apply dom_singleton_L.
  - unfold get_prop. rewrite lookup_singleton_eq. simpl.
    rewrite Hblank. reflexivity.
Qed.

Lemma no_blank_question_is_sent_witness :
  ChatWindow.exec ChatWindow.possible
    [ChatWindow.Change (lit "   "); ChatWindow.Submit;
     ChatWindow.Change (lit "Hello"); ChatWindow.Submit]
    (ChatWindow.mount sample_world)
  = Some (ChatWindow.step ChatWindow.Submit
            (ChatWindow.step (ChatWindow.Change (lit "Hello"))
               (ChatWindow.step ChatWindow.Submit (typed (lit "   ")))))
  /\ Forall (fun req : object =>
               dom req = ({[ "question"%string ]} : gset string)
               /\ has_content (get_prop req "question") = true)
            (outbox (net (ChatWindow.step ChatWindow.Submit
                            (ChatWindow.step (ChatWindow.Change (lit "Hello"))
                               (ChatWindow.step ChatWindow.Submit
                                  (typed (lit "   "))))))).
Proof.
  split; [vm_compute; reflexivity|].
  apply (no_blank_question_is_sent sample_world
           [ChatWindow.Change (lit "   "); ChatWindow.Submit;
            ChatWindow.Change (lit "Hello"); ChatWindow.Submit]).
  vm_compute; reflexivity.
Defined.

(** ** Identifiers and timestamps *)

Lemma StronglySorted_lt_NoDup (l : list nat) : StronglySorted lt l -> NoDup l.
Proof.
  induction 1 as [|k l Hs IH Hk]; constructor; [|exact IH].
  intros Hin. rewrite Forall_forall in Hk. specialize (Hk k Hin). lia.
Qed.

(** The draws behind the messages.  Handlers and renders draw an identifier
    and read the clock together, so the two counters advance by the same
    number [n]; [idx] lists, message by message, the number of the draw the
    message was built from. *)
Lemma draws_invariant
  (w : World) (es : list ChatWindow.Event) (s : Sys ChatWindow.State) :
  ChatWindow.exec ChatWindow.possible es (ChatWindow.mount w) = Some s ->
  exists (n : nat) (idx : list nat),
    uuid_at (world s) = uuid_at w
    /\ iso_at (world s) = iso_at w
    /\ uuids_drawn (world s) = (uuids_drawn w + n)%nat
    /\ clock_reads (world s) = (clock_reads w + n)%nat
    /\ id <$> ChatWindow.messages (ui s)
       = (fun k => uuid_at w (uuids_drawn w + k)) <$> idx
    /\ timestamp <$> ChatWindow.messages (ui s)
       = (fun k => iso_at w (clock_reads w + k)) <$> idx
    /\ StronglySorted lt idx
    /\ Forall (fun k => (k < n)%nat) idx
    /\ head idx = Some 0%nat.
Proof.
  apply (exec_invariant ChatWindow.possible (fun s =>
    exists (n : nat) (idx : list nat),
      uuid_at (world s) = uuid_at w
      /\ iso_at (world s) = iso_at w
      /\ uuids_drawn (world s) = (uuids_drawn w + n)%nat
      /\ clock_reads (world s) = (clock_reads w + n)%nat
      /\ id <$> ChatWindow.messages (ui s)
         = (fun k => uuid_at w (uuids_drawn w + k)) <$> idx
      /\ timestamp <$> ChatWindow.messages (ui s)
         = (fun k => iso_at w (clock_reads w + k)) <$> idx
      /\ StronglySorted lt idx
      /\ Forall (fun k => (k < n)%nat) idx
      /\ head idx = Some 0%nat)).
  - clear. intros e s (n & idx & Hu & Hi & Hd & Hc & Hid & Hts & Hso & Hlt & Hhd) He.
    assert (Hgrow : forall who v,
      exists (n' : nat) (idx' : list nat),
        uuid_at w = uuid_at w
        /\ iso_at w = iso_at w
        /\ S (S (uuids_drawn (world s))) = (uuids_drawn w + n')%nat
        /\ S (S (clock_reads (world s))) = (clock_reads w + n')%nat
        /\ id <$> (ChatWindow.messages (ui s)
                   ++ [message_in (world s) who v])
           = (fun k => uuid_at w (uuids_drawn w + k)) <$> idx'
        /\ timestamp <$> (ChatWindow.messages (ui s)
                          ++ [message_in (world s) who v])
           = (fun k => iso_at w (clock_reads w + k)) <$> idx'
        /\ StronglySorted lt idx'
        /\ Forall (fun k => (k < n')%nat) idx'
        /\ head idx' = Some 0%nat).
    { intros who v. exists (S (S n)), (idx ++ [n]).
      rewrite !fmap_app, Hid, Hts. cbn [fmap list_fmap message_in id timestamp].
      rewrite Hu, Hi, Hd, Hc.
      split_and!; try reflexivity; try lia.
      - apply StronglySorted_app_2.
        + intros a b Ha Hb. apply list_elem_of_singleton in Hb. subst b.
          rewrite Forall_forall in Hlt. apply Hlt, Ha.
        + exact Hso.
        + repeat constructor.
      - apply Forall_app. split.
        + eapply Forall_impl; [exact Hlt|]. simpl. intros; lia.
        + repeat constructor.
      - destruct idx; [discriminate|exact Hhd]. }
    chat_event e s; cbn [ui world ChatWindow.messages uuid_at iso_at
                         uuids_drawn clock_reads world_after_render
                         world_after_message].
    + case_bool_decide.
      * exists n, idx. split_and!; assumption.
      * exists (S n), idx. unfold world_after_render.
        cbn [uuid_at iso_at uuids_drawn clock_reads].
        split_and!; try assumption; try lia.
        eapply Forall_impl; [exact Hlt|]. simpl. intros; lia.
    + exists n, idx. split_and!; assumption.
    + rewrite Hu, Hi. apply Hgrow.
    + rewrite Hu, Hi. apply Hgrow.
  - exists 1%nat, [0%nat]. cbn. rewrite !Nat.add_0_r.
    split_and!; try reflexivity; try lia; repeat constructor.
Qed.

(** X7.  In every run of ChatWindow, each message carries the identifier
    and the clock reading of one and the same draw, the greeting those of
    the first draw at mount, and the draws of later messages are later
    draws: the list is in order of creation.  The draws need not follow
    each other, since every render draws too. *)
Theorem messages_in_creation_order
  (w : World) (es : list ChatWindow.Event) (s : Sys ChatWindow.State) :
  ChatWindow.exec ChatWindow.possible es (ChatWindow.mount w) = Some s ->
  exists (n : nat) (idx : list nat),
    uuids_drawn (world s) = (uuids_drawn w + n)%nat
    /\ clock_reads (world s) = (clock_reads w + n)%nat
    /\ id <$> ChatWindow.messages (ui s)
       = (fun k => uuid_at w (uuids_drawn w + k)) <$> idx
    /\ timestamp <$> ChatWindow.messages (ui s)
       = (fun k => iso_at w (clock_reads w + k)) <$> idx
    /\ StronglySorted lt idx
    /\ Forall (fun k => (k < n)%nat) idx
    /\ head idx = Some 0%nat.
Proof.
  intros Hrun.
  destruct (draws_invariant w es s Hrun)
    as (n & idx & _ & _ & Hd & Hc & Hid & Hts & Hso & Hlt & Hhd).
  exists n, idx. split_and!; assumption.
Qed.

Lemma messages_in_creation_order_witness :
  ChatWindow.exec ChatWindow.possible
    [ChatWindow.Change (lit "Hello"); ChatWindow.Submit;
     ChatWindow.Settle (Resolved sample_response)]
    (ChatWindow.mount sample_world)
  = Some (ChatWindow.submission (Resolved sample_response)
            (typed (lit "Hello")))
  /\ exists (n : nat) (idx : list nat),
       uuids_drawn (world (ChatWindow.submission (Resolved sample_response)
                             (typed (lit "Hello"))))
       = (uuids_drawn sample_world + n)%nat
       /\ clock_reads (world (ChatWindow.submission (Resolved sample_response)
                                (typed (lit "Hello"))))
          = (clock_reads sample_world + n)%nat
       /\ id <$> ChatWindow.messages
                   (ui (ChatWindow.submission (Resolved sample_response)
                          (typed (lit "Hello"))))
          = (fun k => uuid_at sample_world (uuids_drawn sample_world + k))
            <$> idx
       /\ timestamp <$> ChatWindow.messages
                          (ui (ChatWindow.submission (Resolved sample_response)
                                 (typed (lit "Hello"))))
          = (fun k => iso_at sample_world (clock_reads sample_world + k))
            <$> idx
       /\ StronglySorted lt idx
       /\ Forall (fun k => (k < n)%nat) idx
       /\ head idx = Some 0%nat.
Proof.
  split; [vm_compute; reflexivity|].
  apply (messages_in_creation_order sample_world
           [ChatWindow.Change (lit "Hello"); ChatWindow.Submit;
            ChatWindow.Settle (Resolved sample_response)]).
  vm_compute; reflexivity.
Defined.

(** In the run of that witness the draws are the first, the third and the
    fifth: the renders after typing and after the submit event took the
    second and the fourth. *)
Example draws_of_one_submission :
  id <$> ChatWindow.messages
           (ui (ChatWindow.submission (Resolved sample_response)
                  (typed (lit "Hello"))))
  = uuid_at sample_world <$> [0; 2; 4]%nat
  /\ uuids_drawn (world (ChatWindow.submission (Resolved sample_response)
                           (typed (lit "Hello")))) = 6%nat.
Proof. split; vm_compute; reflexivity. Qed.

Lemma bubble_keys (st : ChatWindow.State) :
  ChatWindow.key <$> ChatWindow.bubbles (ChatWindow.render st)
  = id <$> ChatWindow.messages st.
Proof.
  unfold ChatWindow.render. simpl.
  induction (ChatWindow.messages st) as [|m l IH]; simpl; [reflexivity|].
  f_equal. exact IH.
Qed.

(** X8.  When the source of identifiers never repeats itself, the keys of
    the rendered bubbles are pairwise distinct in every run of
    ChatWindow. *)
Theorem bubble_keys_are_distinct
  (w : World) (es : list ChatWindow.Event) (s : Sys ChatWindow.State) :
  (forall i j, uuid_at w i = uuid_at w j -> i = j) ->
  ChatWindow.exec ChatWindow.possible es (ChatWindow.mount w) = Some s ->
  NoDup (ChatWindow.key <$> ChatWindow.bubbles (ChatWindow.render (ui s))).
Proof.
  intros Hinj Hrun.
  destruct (draws_invariant w es s Hrun)
    as (n & idx & _ & _ & _ & _ & Hid & _ & Hso & _).
  rewrite bubble_keys, Hid.
  apply NoDup_fmap_2; [|apply StronglySorted_lt_NoDup, Hso].
  intros i j H. apply Hinj in H. lia.
Qed.

Lemma bubble_keys_are_distinct_witness :
  ((forall i j, uuid_at sample_world i = uuid_at sample_world j -> i = j)
   /\ ChatWindow.exec ChatWindow.possible
        [ChatWindow.Change (lit "Hello"); ChatWindow.Submit;
         ChatWindow.Settle (Resolved sample_response)]
        (ChatWindow.mount sample_world)
      = Some (ChatWindow.submission (Resolved sample_response)
                (typed (lit "Hello"))))
  /\ NoDup (ChatWindow.key
              <$> ChatWindow.bubbles
                    (ChatWindow.render
                       (ui (ChatWindow.submission (Resolved sample_response)
                              (typed (lit "Hello")))))).
Proof.
  assert (Hinj : forall i j,
            uuid_at sample_world i = uuid_at sample_world j -> i = j).
  { intros i j H. unfold sample_world, uuid_at in H.
    apply app_inv_head in H. injection H as H. lia. }
  assert (Hrun : ChatWindow.exec ChatWindow.possible
                   [ChatWindow.Change (lit "Hello"); ChatWindow.Submit;
                    ChatWindow.Settle (Resolved sample_response)]
                   (ChatWindow.mount sample_world)
                 = Some (ChatWindow.submission (Resolved sample_response)
                           (typed (lit "Hello"))))
    by (vm_compute; reflexivity).
  split; [split; [exact Hinj|exact Hrun]|].
  exact (bubble_keys_are_distinct sample_world
           [ChatWindow.Change (lit "Hello"); ChatWindow.Submit;
            ChatWindow.Settle (Resolved sample_response)]
           (ChatWindow.submission (Resolved sample_response)
              (typed (lit "Hello")))
           Hinj Hrun).
Defined.

(** ** The shape of the history *)

Lemma other_other who : other (other who) = who.
Proof. destruct who; reflexivity. Qed.

Lemma alternates_snoc first (l : list ChatMessage) m :
  alternates first (l ++ [m])
  = alternates first l
    && bool_decide (sender m = if Nat.even (length l) then first
                               else other first).
Proof.
  revert first. induction l as [|a l IH]; intros first.
  - simpl. rewrite andb_true_r. reflexivity.
  - cbn [app alternates length]. rewrite IH, other_other, Nat.even_succ.
    rewrite <- Nat.negb_even. rewrite andb_assoc.
    destruct (Nat.even (length l)); reflexivity.
Qed.

(** X9.  In the runs the rendered form offers, the senders take turns
    starting with the bot greeting, and the last message is the user's
    exactly while a call is in flight: every user message is followed by
    its one answer before the next user message. *)
Theorem senders_take_turns
  (w : World) (es : list ChatWindow.Event) (s : Sys ChatWindow.State) :
  ChatWindow.exec ChatWindow.offered es (ChatWindow.mount w) = Some s ->
  alternates bot (ChatWindow.messages (ui s)) = true
  /\ sender <$> last (ChatWindow.messages (ui s))
     = Some (if ChatWindow.isLoading (ui s) then user else bot)
  /\ Nat.even (length (ChatWindow.messages (ui s)))
     = ChatWindow.isLoading (ui s).
Proof.
  intros Hrun.
  cut (pending (net s)
       = (if ChatWindow.isLoading (ui s) then 1%nat else 0%nat)
       /\ alternates bot (ChatWindow.messages (ui s)) = true
       /\ sender <$> last (ChatWindow.messages (ui s))
          = Some (if ChatWindow.isLoading (ui s) then user else bot)
       /\ Nat.even (length (ChatWindow.messages (ui s)))
          = ChatWindow.isLoading (ui s)); [tauto|].
  revert Hrun.
  apply (exec_invariant ChatWindow.offered (fun s =>
    pending (net s) = (if ChatWindow.isLoading (ui s) then 1%nat else 0%nat)
    /\ alternates bot (ChatWindow.messages (ui s)) = true
    /\ sender <$> last (ChatWindow.messages (ui s))
       = Some (if ChatWindow.isLoading (ui s) then user else bot)
    /\ Nat.even (length (ChatWindow.messages (ui s)))
       = ChatWindow.isLoading (ui s))); [|split_and!; reflexivity].
  clear. intros e s (Hn & Ha & Hl & Hp) He.
  destruct e as [v| |o]; simpl in He.
  - rewrite step_change. simpl. auto.
  - apply negb_true_iff in He.
    destruct (whitespace_only (ChatWindow.input (ui s))) eqn:Hb.
    + rewrite (step_submit_blank s Hb). auto.
    + rewrite (step_submit_text s Hb). simpl.
      rewrite alternates_snoc, last_snoc, length_app, Ha, Hp, Hn, He. simpl.
      rewrite Nat.add_1_r, Nat.even_succ, <- Nat.negb_even, Hp, He.
      split_and!; reflexivity.
  - apply bool_decide_eq_true in He.
    assert (Hload : ChatWindow.isLoading (ui s) = true).
    { destruct (ChatWindow.isLoading (ui s)); [reflexivity|lia]. }
    rewrite step_settle. simpl.
    rewrite alternates_snoc, last_snoc, length_app, Ha, Hp, Hn, Hload. simpl.
    rewrite Nat.add_1_r, Nat.even_succ, <- Nat.negb_even, Hp, Hload.
    split_and!; reflexivity.
Qed.

Lemma senders_take_turns_witness :
  ChatWindow.exec ChatWindow.offered
    [ChatWindow.Change (lit "Hello"); ChatWindow.Submit]
    (ChatWindow.mount sample_world)
  = Some (ChatWindow.step ChatWindow.Submit (typed (lit "Hello")))
  /\ alternates bot
       (ChatWindow.messages
          (ui (ChatWindow.step ChatWindow.Submit (typed (lit "Hello")))))
     = true.
Proof.
  split; [vm_compute; reflexivity|].
  apply (senders_take_turns sample_world
           [ChatWindow.Change (lit "Hello"); ChatWindow.Submit]
           (ChatWindow.step ChatWindow.Submit (typed (lit "Hello")))).
  vm_compute; reflexivity.
Defined.

(** Past the form the turns are lost: two submit events before the first
    call settles put two user messages next to each other. *)
Example turns_are_lost_past_the_form :
  (fun s => alternates bot (ChatWindow.messages (ui s)))
    <$> ChatWindow.exec ChatWindow.possible
          [ChatWindow.Change (lit "a"); ChatWindow.Submit;
           ChatWindow.Change (lit "b"); ChatWindow.Submit]
          (ChatWindow.mount sample_world)
  = Some false.
Proof. reflexivity. Qed.

(** X10.  In the runs the rendered form offers, the input is empty while a
    call is in flight: the submit event cleared it and the disabled input
    takes no typing until the call settles. *)
Theorem input_is_empty_while_loading
  (w : World) (es : list ChatWindow.Event) (s : Sys ChatWindow.State) :
  ChatWindow.exec ChatWindow.offered es (ChatWindow.mount w) = Some s ->
  ChatWindow.isLoading (ui s) = true ->
  ChatWindow.input (ui s) = []
  /\ ChatWindow.input_value (ChatWindow.render (ui s)) = [].
Proof.
  intros Hrun. cut (ChatWindow.isLoading (ui s) = true ->
                    ChatWindow.input (ui s) = []); [tauto|].
  revert Hrun.
  apply (exec_invariant ChatWindow.offered (fun s =>
    ChatWindow.isLoading (ui s) = true -> ChatWindow.input (ui s) = []));
    [|discriminate].
  clear. intros e s IH He.
  destruct e as [v| |o]; simpl in He.
  - apply negb_true_iff in He. rewrite step_change. simpl. congruence.
  - destruct (whitespace_only (ChatWindow.input (ui s))) eqn:Hb.
    + rewrite (step_submit_blank s Hb). exact IH.
    + rewrite (step_submit_text s Hb). reflexivity.
  - rewrite step_settle. discriminate.
Qed.

Lemma input_is_empty_while_loading_witness :
  (ChatWindow.exec ChatWindow.offered
     [ChatWindow.Change (lit "Hello"); ChatWindow.Submit]
     (ChatWindow.mount sample_world)
   = Some (ChatWindow.step ChatWindow.Submit (typed (lit "Hello")))
   /\ ChatWindow.isLoading
        (ui (ChatWindow.step ChatWindow.Submit (typed (lit "Hello")))) = true)
  /\ ChatWindow.input
       (ui (ChatWindow.step ChatWindow.Submit (typed (lit "Hello")))) = [].
Proof.
  split; [split; reflexivity|].
  apply (input_is_empty_while_loading sample_world
           [ChatWindow.Change (lit "Hello"); ChatWindow.Submit]
           (ChatWindow.step ChatWindow.Submit (typed (lit "Hello"))));
    vm_compute; reflexivity.
Defined.

(** X11.  In every run of ChatWindow, through the form or past it, the
    first message of the list is the greeting built at mount: nothing is
    ever put before it and it is never replaced. *)
Theorem greeting_stays_first
  (w : World) (es : list ChatWindow.Event) (s : Sys ChatWindow.State) :
  ChatWindow.exec ChatWindow.possible es (ChatWindow.mount w) = Some s ->
  ChatWindow.messages (ui s) !! 0%nat
  = Some (message_in w bot (Str (lit "Hi there! How can I help you?"))).
Proof.
  intros Hrun. apply exec_appends in Hrun.
  eapply prefix_lookup_Some; [|exact Hrun]. reflexivity.
Qed.

Lemma greeting_stays_first_witness :
  ChatWindow.exec ChatWindow.possible
    [ChatWindow.Change (lit "Hello"); ChatWindow.Submit;
     ChatWindow.Settle (Rejected Undefined)]
    (ChatWindow.mount sample_world)
  = Some (ChatWindow.step (ChatWindow.Settle (Rejected Undefined))
            (ChatWindow.step ChatWindow.Submit (typed (lit "Hello"))))
  /\ ChatWindow.messages
       (ui (ChatWindow.step (ChatWindow.Settle (Rejected Undefined))
              (ChatWindow.step ChatWindow.Submit (typed (lit "Hello")))))
       !! 0%nat
     = Some (message_in sample_world bot
               (Str (lit "Hi there! How can I help you?"))).
Proof.
  split; [vm_compute; reflexivity|].
  apply (greeting_stays_first sample_world
           [ChatWindow.Change (lit "Hello"); ChatWindow.Submit;
            ChatWindow.Settle (Rejected Undefined)]).
  vm_compute; reflexivity.
Defined.

(** ** What every run of useChat keeps *)

(** X12.  In every run of useChat there are as many user messages as calls
    issued and as many bot messages as calls settled; the list starts
    empty, so no bot message stands without a call. *)
Theorem hook_messages_count_calls
  (w : World) (es : list UseChat.Event) (s : Sys UseChat.State) :
  UseChatRun.exec es (UseChat.mount w) = Some s ->
  count_sender user (UseChat.messages (ui s)) = length (outbox (net s))
  /\ (count_sender bot (UseChat.messages (ui s)) + pending (net s)
      = length (outbox (net s)))%nat.
Proof.
  apply (hook_exec_invariant (fun s =>
    count_sender user (UseChat.messages (ui s)) = length (outbox (net s))
    /\ (count_sender bot (UseChat.messages (ui s)) + pending (net s)
        = length (outbox (net s)))%nat)); [|split; reflexivity].
  clear. intros e s [Hu Hb] He. hook_event e s; simpl in *.
  - rewrite !count_sender_app, length_app. simpl.
    unfold count_sender at 2 4. simpl. lia.
  - apply bool_decide_eq_true in He. rewrite !count_sender_app.
    unfold count_sender at 2 4. simpl. lia.
Qed.

Lemma hook_messages_count_calls_witness :
  UseChatRun.exec
    [UseChat.Send (lit "a"); UseChat.Send (lit "b");
     UseChat.Settle 0 (Rejected Undefined)]
    (UseChat.mount sample_world)
  = Some (UseChat.step (UseChat.Settle 0 (Rejected Undefined))
            (UseChat.step (UseChat.Send (lit "b"))
               (UseChat.step (UseChat.Send (lit "a"))
                  (UseChat.mount sample_world))))
  /\ count_sender user
       (UseChat.messages
          (ui (UseChat.step (UseChat.Settle 0 (Rejected Undefined))
                 (UseChat.step (UseChat.Send (lit "b"))
                    (UseChat.step (UseChat.Send (lit "a"))
                       (UseChat.mount sample_world))))))
     = length
         (outbox
            (net (UseChat.step (UseChat.Settle 0 (Rejected Undefined))
                    (UseChat.step (UseChat.Send (lit "b"))
                       (UseChat.step (UseChat.Send (lit "a"))
                          (UseChat.mount sample_world)))))).
Proof.
  split; [vm_compute; reflexivity|].
  apply (hook_messages_count_calls sample_world
           [UseChat.Send (lit "a"); UseChat.Send (lit "b");
            UseChat.Settle 0 (Rejected Undefined)]).
  vm_compute; reflexivity.
Defined.

(** X13.  In every run of useChat, the texts of the user messages are, in
    order, the [message] properties of the requests handed to the mutation,
    and every request has that one property: the text given to [send] goes
    out as it is shown. *)
Theorem hook_shown_is_sent
  (w : World) (es : list UseChat.Event) (s : Sys UseChat.State) :
  UseChatRun.exec es (UseChat.mount w) = Some s ->
  texts_of user (UseChat.messages (ui s)) = sent "message" (outbox (net s))
  /\ Forall (fun req : object => has_shape req ChatRequest) (outbox (net s)).
Proof.
  apply (hook_exec_invariant (fun s =>
    texts_of user (UseChat.messages (ui s)) = sent "message" (outbox (net s))
    /\ Forall (fun req : object => has_shape req ChatRequest)
              (outbox (net s)))); [|split; [reflexivity|constructor]].
  clear. intros e s [IH HF] He. hook_event e s; simpl.
  - rewrite texts_of_app, sent_app, IH. split; [reflexivity|].
    apply Forall_app. split; [exact HF|].
    constructor; [apply message_object_ChatRequest|constructor].
  - rewrite texts_of_app, IH. split; [apply app_nil_r|exact HF].
Qed.

Lemma hook_shown_is_sent_witness :
  UseChatRun.exec [UseChat.Send (lit " Hello ")] (UseChat.mount sample_world)
  = Some (UseChat.step (UseChat.Send (lit " Hello "))
            (UseChat.mount sample_world))
  /\ texts_of user
       (UseChat.messages
          (ui (UseChat.step (UseChat.Send (lit " Hello "))
                 (UseChat.mount sample_world))))
     = sent "message"
         (outbox (net (UseChat.step (UseChat.Send (lit " Hello "))
                         (UseChat.mount sample_world)))).
Proof.
  split; [vm_compute; reflexivity|].
  apply (hook_shown_is_sent sample_world [UseChat.Send (lit " Hello ")]).
  vm_compute; reflexivity.
Defined.

(** ** What is rendered *)

(** X14.  The rendering shows the texts of the user messages, in order, as
    plain text and the texts of the bot messages, in order, through
    markdown; a bubble is right-aligned exactly when it is plain text. *)
Theorem render_splits_plain_and_markdown (st : ChatWindow.State) :
  ChatWindow.body
    <$> filter (fun b => ChatWindow.as_markdown b = false)
               (ChatWindow.bubbles (ChatWindow.render st))
  = texts_of user (ChatWindow.messages st)
  /\ ChatWindow.body
       <$> filter (fun b => ChatWindow.as_markdown b = true)
                  (ChatWindow.bubbles (ChatWindow.render st))
     = texts_of bot (ChatWindow.messages st)
  /\ Forall (fun b => ChatWindow.right_aligned b
                      = negb (ChatWindow.as_markdown b))
            (ChatWindow.bubbles (ChatWindow.render st))
  /\ length (ChatWindow.bubbles (ChatWindow.render st))
     = length (ChatWindow.messages st).
Proof.
  unfold ChatWindow.render, texts_of. simpl.
  induction (ChatWindow.messages st) as [|m l (IH1 & IH2 & IH3 & IH4)].
  - split_and!; [reflexivity|reflexivity|constructor|reflexivity].
  - cbn [map length]. rewrite !filter_cons. cbn [ChatWindow.as_markdown].
    destruct m as [i who v t]. cbn [sender text].
    destruct who; simpl; split_and!;
      first [ exact IH1 | exact IH2
            | f_equal; first [exact IH1 | exact IH2 | exact IH4]
            | constructor; [reflexivity|exact IH3] ].
Qed.

(** ** Abrupt completion *)

(** X15.  No handler completes abruptly: whatever the state, the text
    typed or given and the outcome of the call, the handlers of ChatWindow
    ([onChange], [handleSubmit] before and after its [await]) and of
    useChat ([send] and the mutation callbacks) complete normally, so no
    event leaves a rejection unhandled. *)
Theorem handlers_complete_normally
  (s : Sys ChatWindow.State) (e : ChatWindow.Event)
  (h : Sys UseChat.State) (e' : UseChat.Event) :
  result (ChatWindow.handle e) s = Normal tt
  /\ result (UseChat.handle e') h = Normal tt.
Proof.
  unfold result. split.
  - destruct e as [v| |o]; simpl.
    + reflexivity.
    + destruct (whitespace_only (ChatWindow.input (ui s))) eqn:Hb.
      * rewrite (handleSubmit_begin_blank s Hb). reflexivity.
      * rewrite (handleSubmit_begin_text s Hb). reflexivity.
    + rewrite handleSubmit_resume_eq. reflexivity.
  - destruct e' as [t|k o]; simpl.
    + reflexivity.
    + rewrite settle_eq. reflexivity.
Qed.
